(** * dm-data-relationship-breaker: a shallow embedding of [src/main.py]

    The program validates four command-line values, draws [num_records]
    synthetic (name, address) records from Faker, shuffles the address column
    with [random.shuffle], and writes the result with [csv.writer].

    Python text is modelled by Rocq's 8-bit [string]; Python integers by [Z];
    the two random sources, the disk and the log are one explicit [World]
    threaded through a state-and-exception monad. *)

From Stdlib Require Import ZArith QArith.QArith_base List String Ascii Lia.
From stdpp Require Import base tactics option list strings gmap pretty.

#[local] Arguments String.append !s1 s2 : simpl nomatch.

Local Open Scope string_scope.
Local Open Scope Z_scope.
Local Open Scope list_scope.

(** ** Python values and exceptions *)

(** The dynamically typed values [validate_input] may be handed. *)
Inductive pyval : Type :=
  | PyNone
  | PyBool (b : bool)
  | PyInt (z : Z)
  | PyFloat (q : Q)
  | PyStr (s : string)
  | PyBytes (b : list Byte.byte).

(** [isinstance(v, str)] *)
Definition isinstance_str (v : pyval) : bool :=
  match v with PyStr _ => true | _ => false end.

(** [isinstance(v, int)]: in Python [bool] is a subclass of [int]. *)
Definition isinstance_int (v : pyval) : bool :=
  match v with PyInt _ | PyBool _ => true | _ => false end.

(** Truth value of an object, as [not v] tests it. *)
Definition truthy (v : pyval) : bool :=
  match v with
  | PyNone => false
  | PyBool b => b
  | PyInt z => negb (Z.eqb z 0)
  | PyFloat q => negb (Qeq_bool q 0)
  | PyStr s => negb (String.eqb s "")
  | PyBytes b => match b with [] => false | _ => true end
  end.

(** The integer an [int] instance denotes ([True] is 1, [False] is 0). *)
Definition int_value (v : pyval) : option Z :=
  match v with
  | PyInt z => Some z
  | PyBool b => Some (Z.b2z b)
  | _ => None
  end.

Definition str_value (v : pyval) : option string :=
  match v with PyStr s => Some s | _ => None end.

(** The part of Python's exception hierarchy the program can meet. *)
Inductive exn_class : Type :=
  | BaseException | SystemExit | KeyboardInterrupt
  | Exception | ValueError | UnicodeEncodeError | TypeError | IndexError
  | OSError | FileNotFoundError | PermissionError.

Global Instance exn_class_eq_dec : EqDecision exn_class.
Proof. solve_decision. Defined.

(** Direct base class. *)
Definition base_class (c : exn_class) : option exn_class :=
  match c with
  | BaseException => None
  | SystemExit | KeyboardInterrupt | Exception => Some BaseException
  | ValueError | TypeError | IndexError | OSError => Some Exception
  | UnicodeEncodeError => Some ValueError
  | FileNotFoundError | PermissionError => Some OSError
  end.

(** [issubclass c d]; the hierarchy above has depth three. *)
Definition issubclass (c d : exn_class) : bool :=
  let up := fun o : option exn_class => o ≫= base_class in
  let hit := fun o : option exn_class => bool_decide (o = Some d) in
  hit (Some c) || hit (up (Some c)) || hit (up (up (Some c)))
  || hit (up (up (up (Some c)))).

(** A raised exception: its class and [str(e)]; [sys.exit(code)] raises
    [SystemExit] carrying the code. *)
Inductive exn : Type :=
  | mkExn (cls : exn_class) (msg : string)
  | SysExit (code : Z).

Definition exn_type (e : exn) : exn_class :=
  match e with mkExn cls _ => cls | SysExit _ => SystemExit end.

Definition exn_msg (e : exn) : string :=
  match e with mkExn _ msg => msg | SysExit code => pretty code end.

Global Instance exn_eq_dec : EqDecision exn.
Proof. solve_decision. Defined.

(** What an [except cls] clause catches. *)
Definition caught_by (cls : exn_class) (e : exn) : bool :=
  issubclass (exn_type e) cls.

(** ** Text operations used by the program *)

(** [str.lower] on ASCII text: the letters A to Z change, every other
    character is kept. *)
Definition lower_ascii (c : ascii) : ascii :=
  let n := nat_of_ascii c in
  if ((65 <=? n) && (n <=? 90))%nat then ascii_of_nat (n + 32) else c.

Fixpoint lower (s : string) : string :=
  match s with
  | EmptyString => EmptyString
  | String c s' => String (lower_ascii c) (lower s')
  end.

(** [s.startswith(p)] *)
Fixpoint startswith (p s : string) : bool :=
  match p, s with
  | EmptyString, _ => true
  | String a p', String b s' => Ascii.eqb a b && startswith p' s'
  | String _ _, EmptyString => false
  end.

(** [needle in hay] on strings: [needle] occurs at some offset of [hay]. *)
Fixpoint str_in (needle hay : string) : bool :=
  startswith needle hay ||
  match hay with
  | EmptyString => false
  | String _ hay' => str_in needle hay'
  end.

(** ** The libraries the program calls *)

(** Faker, as far as the program uses it: a class-wide random state that
    [Faker.seed] resets, and two providers that draw from it. *)
Class FakerGen (F : Type) := {
  faker_seed : Z → F;
  faker_name : F → string * F;
  faker_address : F → string * F
}.

(** The hidden instance behind the functions of the [random] module.
    [randbelow n] is [Random._randbelow], which for [0 < n] answers in
    [range(n)]. *)
Class RandomGen (R : Type) := {
  randbelow : nat → R → nat * R;
  randbelow_lt : ∀ n r, (0 < n)%nat → ((randbelow n r).1 < n)%nat
}.

(** ** The world the program runs in *)

Inductive level : Type := INFO | ERROR.

Global Instance level_eq_dec : EqDecision level.
Proof. solve_decision. Defined.

(** Files by path, with the faults the operating system answers with: a path
    that cannot be opened for writing, and data that cannot be written to a
    path. *)
Record Disk : Type := mkDisk {
  files : gmap string string;
  open_fault : string → option exn;
  write_fault : string → string → option exn
}.

(** [faker_random] is the state [Faker.seed] sets ([faker.generator.random]);
    [global_random] is the state of the [random] module, which the program
    never seeds. They are two objects. *)
Record World (F R : Type) : Type := mkWorld {
  faker_random : F;
  global_random : R;
  disk : Disk;
  log : list (level * string)
}.
Arguments mkWorld {F R}.
Arguments faker_random {F R}.
Arguments global_random {F R}.
Arguments disk {F R}.
Arguments log {F R}.

(** ** State and exception monad *)

Inductive outcome (A : Type) : Type :=
  | Return (a : A)
  | Raise (e : exn).
Arguments Return {A}.
Arguments Raise {A}.

Definition M (W A : Type) : Type := W → outcome A * W.

Definition ret {W A} (a : A) : M W A := fun w => (Return a, w).

Definition raise {W A} (e : exn) : M W A := fun w => (Raise e, w).

Definition bind {W A B} (m : M W A) (k : A → M W B) : M W B :=
  fun w =>
    match m w with
    | (Return a, w') => k a w'
    | (Raise e, w') => (Raise e, w')
    end.

Declare Scope py_scope.
Delimit Scope py_scope with py.
Notation "x <- m ;; k" := (bind m (fun x => k))
  (at level 100, m at next level, k at level 200, right associativity)
  : py_scope.
Notation "'do' m ;; k" := (bind m (fun _ => k))
  (at level 100, m at next level, k at level 200, right associativity)
  : py_scope.
Local Open Scope py_scope.

(** [for x in l: acc = body acc x], the accumulator standing for the
    variables the loop body updates. *)
Fixpoint for_in {W A B} (l : list B) (body : A → B → M W A) (acc : A)
  : M W A :=
  match l with
  | [] => ret acc
  | x :: l' => acc' <- body acc x ;; for_in l' body acc'
  end.

(** [range(n)] for an integer [n]: empty when [n <= 0]. *)
Definition range (n : Z) : list nat := seq 0 (Z.to_nat n).

(** ** The [csv] module, default dialect

    [csv.writer(f)] and [csv.reader(f)] use the [excel] dialect: delimiter
    [,], quotechar the double quote, [doublequote] on, no escapechar,
    [QUOTE_MINIMAL], lineterminator CR LF, not strict. The definitions follow
    [Modules/_csv.c] (CPython 3.11 and later, where the end-of-line mark is
    no character of the text) specialised to that dialect. *)
Module Csv.

Definition LF : ascii := "010"%char.
Definition CR : ascii := "013"%char.
Definition delimiter : ascii := ","%char.
Definition quotechar : ascii := "034"%char.
Definition lineterminator : string := String CR (String LF EmptyString).

Definition is_newline (c : ascii) : bool := Ascii.eqb c LF || Ascii.eqb c CR.

(** *** Writer *)

(** A character that forces the field to be quoted ([join_append_data]):
    the delimiter, the quotechar, or a character of the lineterminator. *)
Definition special (c : ascii) : bool :=
  Ascii.eqb c delimiter || Ascii.eqb c quotechar || is_newline c.

Fixpoint needs_quotes (s : string) : bool :=
  match s with
  | EmptyString => false
  | String c s' => special c || needs_quotes s'
  end.

(** The field's characters, each quotechar doubled. *)
Fixpoint doubled (s : string) : string :=
  match s with
  | EmptyString => EmptyString
  | String c s' =>
      if Ascii.eqb c quotechar
      then String quotechar (String quotechar (doubled s'))
      else String c (doubled s')
  end.

Definition write_field (s : string) : string :=
  if needs_quotes s
  then String quotechar (doubled s +:+ String quotechar EmptyString)
  else s.

(** The fields separated by the delimiter ([join_append] adds it before
    every field but the first). *)
Fixpoint join_fields (fields : list string) : string :=
  match fields with
  | [] => EmptyString
  | [f] => write_field f
  | f :: rest => write_field f +:+ String delimiter (join_fields rest)
  end.

(** The text [writerow] hands to [write]: a record that would be empty (one
    empty field) is written as an empty quoted field. *)
Definition row_text (fields : list string) : string :=
  let rec := join_fields fields in
  let rec :=
    match fields, rec with
    | _ :: _, EmptyString => String quotechar (String quotechar EmptyString)
    | _, _ => rec
    end in
  rec +:+ lineterminator.

(** *** Reader *)

Inductive ParserState : Type :=
  | START_RECORD | START_FIELD | IN_FIELD | IN_QUOTED_FIELD
  | QUOTE_IN_QUOTED_FIELD | EAT_CRNL.

Global Instance ParserState_eq_dec : EqDecision ParserState.
Proof. solve_decision. Defined.

Record Reader : Type := mkReader {
  state : ParserState;
  field : string;
  fields : list string
}.



(** [parse_add_char] *)
Definition parse_add_char (c : ascii) (self : Reader) : Reader :=
  mkReader (state self) (field self +:+ String c EmptyString) (fields self).





Definition add (c : option ascii) (self : Reader) : Reader :=
  match c with None => self | Some ch => parse_add_char ch self end.






(** *** Lines of a text file opened with [newline=''] *)





(** *** The reader, character by character over the whole text

    [feed_text] runs the parser over a text without cutting it into lines
    first: the end-of-line mark follows every character that ends a line. It
    is shown below to agree with [read_lines] on [file_lines]. *)







(** The text [writerows] produces for a list of rows. *)
Definition rows_text (rows : list (list string)) : string :=
  foldr (λ row text, row_text row +:+ text) EmptyString rows.

End Csv.

(** ** Command-line values *)

(** [argparse.Namespace] with the four attributes the program reads. *)
Record Namespace : Type := mkNamespace {
  city : pyval;
  num_records : pyval;
  output_file : pyval;
  seed : pyval
}.

Definition is_none (v : pyval) : bool :=
  match v with PyNone => true | _ => false end.

(** [v <= 0] for an [int] instance [v]. *)
Definition le_zero (v : pyval) : bool :=
  match int_value v with
  | Some z => z <=? 0
  | None => false
  end.

(** [str(v)] as an f-string renders it; floats and bytes are rejected by
    [validate_input] before any message is formatted, and are rendered only
    by their type. *)
Definition py_str (v : pyval) : string :=
  match v with
  | PyNone => "None"
  | PyBool true => "True"
  | PyBool false => "False"
  | PyInt z => pretty z
  | PyStr s => s
  | PyFloat _ => "<float>"
  | PyBytes _ => "<bytes>"
  end.

(** How the process ends. *)
Inductive exit_status : Type :=
  | Exit (code : Z)
  | Unhandled (e : exn).

(** The four conditions of the validator's contract, as the specification
    words them. An [int] instance is an integer, [True] and [False]
    included, as [isinstance] has it. *)
Definition nonempty_text (v : pyval) : bool :=
  match v with
  | PyStr s => negb (String.eqb s EmptyString)
  | _ => false
  end.

Definition positive_integer (v : pyval) : bool :=
  match int_value v with
  | Some z => 0 <? z
  | None => false
  end.

Definition integer_if_provided (v : pyval) : bool :=
  match v with
  | PyNone => true
  | _ => match int_value v with Some _ => true | None => false end
  end.

Definition valid_args (args : Namespace) : bool :=
  nonempty_text (city args) && positive_integer (num_records args)
  && nonempty_text (output_file args) && integer_if_provided (seed args).

(** The rows of the file for a dataset: the header, then one row per
    record. *)
Definition record_row (r : string * string) : list string := [r.1; r.2].

Definition csv_rows (data : list (string * string)) : list (list string) :=
  ["Name"; "Address"] :: map record_row data.



(** The path cannot be opened for writing, or opens and rejects the first
    write, the operating system answering with [e]. *)
Definition unwritable (d : Disk) (path : string) (e : exn) : Prop :=
  open_fault d path = Some e
  ∨ (open_fault d path = None
     ∧ write_fault d path (Csv.row_text ["Name"; "Address"]) = Some e).

Section Program.
Context {F R : Type} `{FakerGen F} `{RandomGen R}.

Abbreviation W := (World F R).
Abbreviation Py := (M W).

(** *** Primitive effects *)

(** [Faker.seed(seed)] *)
Definition Faker_seed (s : Z) : Py unit := fun w =>
  (Return (), mkWorld (faker_seed s) (global_random w) (disk w) (log w)).

(** [fake.name()] *)
Definition fake_name : Py string := fun w =>
  let '(x, f) := faker_name (faker_random w) in
  (Return x, mkWorld f (global_random w) (disk w) (log w)).

(** [fake.address()] *)
Definition fake_address : Py string := fun w =>
  let '(x, f) := faker_address (faker_random w) in
  (Return x, mkWorld f (global_random w) (disk w) (log w)).

(** [random._inst._randbelow(n)] *)
Definition random_randbelow (n : nat) : Py nat := fun w =>
  let '(j, r) := randbelow n (global_random w) in
  (Return j, mkWorld (faker_random w) r (disk w) (log w)).

Definition logging (lv : level) (msg : string) : Py unit := fun w =>
  (Return (),
   mkWorld (faker_random w) (global_random w) (disk w) (log w ++ [(lv, msg)])).

(** [open(path, "w", newline="")]: the file is created or truncated. The
    file object is identified with its path. *)
Definition open_w (path : string) : Py string := fun w =>
  match open_fault (disk w) path with
  | Some e => (Raise e, w)
  | None =>
      let d := disk w in
      (Return path,
       mkWorld (faker_random w) (global_random w)
         (mkDisk (<[path := EmptyString]> (files d))
            (open_fault d) (write_fault d))
         (log w))
  end.

(** [f.write(data)]; buffering is not modelled, a fault shows at the call. *)
Definition file_write (f : string) (data : string) : Py unit := fun w =>
  let d := disk w in
  match write_fault d f data with
  | Some e => (Raise e, w)
  | None =>
      (Return (),
       mkWorld (faker_random w) (global_random w)
         (mkDisk
            (<[f := default EmptyString (files d !! f) +:+ data]> (files d))
            (open_fault d) (write_fault d))
         (log w))
  end.

(** [sys.exit(code)] *)
Definition sys_exit {A} (code : Z) : Py A := raise (SysExit code).

(** [try: m] followed by [except] clauses: the first clause whose class
    matches handles the exception; what a handler raises is not handled by
    its siblings. *)
Definition try_ {A} (m : Py A) (clauses : list (exn_class * (exn → Py A)))
  : Py A :=
  fun w =>
    match m w with
    | (Raise e, w') =>
        match find (λ cl, caught_by cl.1 e) clauses with
        | Some cl => cl.2 e w'
        | None => (Raise e, w')
        end
    | r => r
    end.

(** *** generate_fake_data (lines 50-76) *)

Definition generate_fake_data (num_records : Z) (city : string)
    (seed : option Z) : Py (list (string * string)) :=
  do match seed with
     | Some s => Faker_seed s
     | None => ret ()
     end ;;
  for_in (range num_records) (fun data _ =>
    name <- fake_name ;;
    address <- fake_address ;;
    let address :=
      if negb (str_in (lower city) (lower address))
      then address +:+ ", " +:+ city
      else address in
    ret (data ++ [(name, address)])) [].

(** *** random.shuffle *)

(** [x[i], x[j] = x[j], x[i]]: both items are read, then [x[i]] and [x[j]]
    are assigned in that order; an index outside the list is an
    [IndexError]. *)
Definition swap_items {A} (i j : nat) (x : list A) : Py (list A) :=
  match x !! j, x !! i with
  | Some xj, Some xi => ret (<[j := xi]> (<[i := xj]> x))
  | _, _ => raise (mkExn IndexError "list index out of range")
  end.

(** [for i in reversed(range(1, len(x))): j = randbelow(i + 1); swap] *)
Definition random_shuffle {A} (x : list A) : Py (list A) :=
  for_in (rev (seq 1 (length x - 1))) (fun x i =>
    j <- random_randbelow (i + 1) ;;
    swap_items i j x) x.

(** *** reassign_addresses (lines 78-93) *)

Definition enumerate {A} (l : list A) : list (nat * A) :=
  zip (seq 0 (length l)) l.

Definition reassign_addresses (data : list (string * string))
  : Py (list (string * string)) :=
  let addresses := map snd data in
  addresses <- random_shuffle addresses ;;
  for_in (enumerate data) (fun reassigned_data '(i, (name, _)) =>
    match addresses !! i with
    | Some a => ret (reassigned_data ++ [(name, a)])
    | None => raise (mkExn IndexError "list index out of range")
    end) [].

(** *** write_data_to_csv (lines 95-112) *)

(** [csv.writer(csvfile).writerow(row)] *)
Definition writerow (csvfile : string) (row : list string) : Py unit :=
  file_write csvfile (Csv.row_text row).

(** [writerows(data)]: every record is a pair, written as a two-field row. *)
Definition writerows (csvfile : string) (data : list (string * string))
  : Py unit :=
  for_in data (fun _ '(name, address) =>
    writerow csvfile [name; address]) ().

(** The [with] statement of lines 104-108. *)
Definition write_rows_to (data : list (string * string))
    (output_file : string) : Py unit :=
  csvfile <- open_w output_file ;;
  do writerow csvfile ["Name"; "Address"] ;;
  writerows csvfile data.

Definition write_data_to_csv (data : list (string * string))
    (output_file : string) : Py unit :=
  try_
    (do write_rows_to data output_file ;;
     logging INFO ("Data written to " +:+ output_file))
    [(Exception, fun e =>
        do logging ERROR
             ("Error writing to file " +:+ output_file +:+ ": "
              +:+ exn_msg e) ;;
        raise e)].

(** *** validate_input (lines 114-134) *)

Definition validate_input (args : Namespace) : Py unit :=
  do (if negb (isinstance_str (city args)) || negb (truthy (city args))
      then raise (mkExn ValueError "City must be a non-empty string.")
      else ret ()) ;;
  do (if negb (isinstance_int (num_records args))
         || le_zero (num_records args)
      then raise (mkExn ValueError
                    "Number of records must be a positive integer.")
      else ret ()) ;;
  do (if negb (isinstance_str (output_file args))
         || negb (truthy (output_file args))
      then raise (mkExn ValueError "Output file must be a non-empty string.")
      else ret ()) ;;
  if negb (is_none (seed args)) && negb (isinstance_int (seed args))
  then raise (mkExn ValueError "Seed must be an integer.")
  else ret ().

(** *** main (lines 137-167) *)

(** The typed view of a value that [validate_input] has accepted; a value of
    another type would fail in the callee with [TypeError]. *)
Definition expect_int (v : pyval) : Py Z :=
  match int_value v with
  | Some z => ret z
  | None => raise (mkExn TypeError "an integer is required")
  end.

Definition expect_str (v : pyval) : Py string :=
  match str_value v with
  | Some s => ret s
  | None => raise (mkExn TypeError "a string is required")
  end.

Definition expect_seed (v : pyval) : Py (option Z) :=
  match v with
  | PyNone => ret None
  | _ => z <- expect_int v ;; ret (Some z)
  end.

(** The [try] block of [main], lines 145-160. *)
Definition main_try (args : Namespace) : Py unit :=
  do validate_input args ;;
  do logging INFO "Starting data relationship breaker..." ;;
  do logging INFO
       ("City: " +:+ py_str (city args)
        +:+ ", Number of Records: " +:+ py_str (num_records args)
        +:+ ", Output File: " +:+ py_str (output_file args)) ;;
  do (if negb (is_none (seed args))
      then logging INFO
             ("Using seed " +:+ py_str (seed args)
              +:+ " for Faker's random number generator.")
      else ret ()) ;;
  n <- expect_int (num_records args) ;;
  c <- expect_str (city args) ;;
  s <- expect_seed (seed args) ;;
  data <- generate_fake_data n c s ;;
  reassigned_data <- reassign_addresses data ;;
  out <- expect_str (output_file args) ;;
  do write_data_to_csv reassigned_data out ;;
  logging INFO "Data relationship breaking completed successfully.".

(** [main] after [parser.parse_args()] has produced [args];
    [logging.exception] logs at level [ERROR]. *)
Definition main (args : Namespace) : Py unit :=
  try_ (main_try args)
    [(ValueError, fun e =>
        do logging ERROR ("Input validation error: " +:+ exn_msg e) ;;
        sys_exit 1);
     (Exception, fun e =>
        do logging ERROR ("An unexpected error occurred: " +:+ exn_msg e) ;;
        sys_exit 1)].

(** The script run as a process: [main()] returning ends it with status 0,
    [SystemExit] with the code it carries, and any other exception that
    reaches the top is an unhandled fault (a traceback, status 1). *)
Definition run (args : Namespace) (w : W) : exit_status * W :=
  match main args w with
  | (Return _, w') => (Exit 0, w')
  | (Raise (SysExit code), w') => (Exit code, w')
  | (Raise e, w') => (Unhandled e, w')
  end.

(** [w] with one more record in the log. *)
Definition logged (lv : level) (msg : string) (w : W) : W :=
  mkWorld (faker_random w) (global_random w) (disk w) (log w ++ [(lv, msg)]).

(** Two worlds that differ at most in the state of the [random] module. *)
Definition frame (w w' : W) : Prop :=
  faker_random w' = faker_random w ∧ disk w' = disk w ∧ log w' = log w.

(** Worlds with the same state of the [random] module. *)
Definition same_random (w1 w2 : W) : Prop :=
  global_random w1 = global_random w2.

(** A computation whose outcome depends on the world only through the state
    of the [random] module. *)
Definition reads_random_only {A} (m : Py A) : Prop :=
  ∀ w1 w2, same_random w1 w2 →
    (m w1).1 = (m w2).1 ∧ same_random (m w1).2 (m w2).2.

(** Lines 152-155 of [main]: the generator, then the shuffler on its
    result. *)
Definition pipeline (num_records : Z) (city : string) (seed : option Z)
  : Py (list (string * string)) :=
  data <- generate_fake_data num_records city seed ;;
  reassign_addresses data.

(** The Faker state the draws of [generate_fake_data] start from. *)
Definition start_state (seed : option Z) (w : W) : F :=
  match seed with
  | Some s => faker_seed s
  | None => faker_random w
  end.

(** What Faker hands out in [n] rounds of [name()] then [address()]. *)
Fixpoint faker_draws (n : nat) (f : F) : list (string * string) * F :=
  match n with
  | O => ([], f)
  | S k =>
      let '(name, f1) := faker_name f in
      let '(address, f2) := faker_address f1 in
      let '(rs, f3) := faker_draws k f2 in
      ((name, address) :: rs, f3)
  end.

(** Lines 73-74: the city is appended when the address does not mention
    it. *)
Definition with_city (city : string) (r : string * string)
  : string * string :=
  (r.1,
   if negb (str_in (lower city) (lower r.2))
   then r.2 +:+ ", " +:+ city
   else r.2).

End Program.

(** ** Concrete libraries, for running the model *)

(** A linear congruential generator in the place of the Mersenne twister. *)
Definition lcg_next (r : Z) : Z := (r * 1103515245 + 12345) mod 2147483648.

Global Instance lcg_random : RandomGen Z.
Proof.
  refine {| randbelow n r := (Z.to_nat (r mod Z.of_nat n), lcg_next r) |}.
  intros n r Hn; simpl.
  pose proof (Z.mod_pos_bound r (Z.of_nat n) ltac:(lia)). lia.
Defined.

Definition toy_names : list string :=
  ["Ada Byron"; "Carl Gauss"; "Emmy Noether"; "Alan Turing"; "Grace Hopper"].

Definition toy_addresses : list string :=
  ["1 Rue de Rivoli, PARIS 75001"; "7 Oak, Street"; "42 Elm Road";
   "9 High St, Apt 3"; "350 Fifth Avenue"].

(** A Faker whose state counts the draws made since the seed. *)
Global Instance toy_faker : FakerGen nat := {|
  faker_seed s := Z.to_nat (Z.abs s);
  faker_name f := (nth (f mod 5) toy_names EmptyString, S f);
  faker_address f := (nth (f mod 5) toy_addresses EmptyString, S f)
|}.

Definition no_faults : Disk := mkDisk ∅ (λ _, None) (λ _ _, None).

(** A disk on which the directory [/nonexistent] does not exist. *)
Definition missing_dir : Disk :=
  mkDisk ∅
    (λ path,
       if startswith "/nonexistent/" path
       then Some (mkExn FileNotFoundError
                    "[Errno 2] No such file or directory")
       else None)
    (λ _ _, None).

Definition toy_world (f : nat) (r : Z) (d : Disk) : World nat Z :=
  mkWorld f r d [].

(** A dataset whose fields hold the delimiter, the quotechar and line
    breaks. *)
Definition awkward_data : list (string * string) :=
  [("Byron, Ada", "12 St James's Square" +:+ Csv.lineterminator +:+ "London");
   (String Csv.quotechar "Carl" +:+ String Csv.quotechar " Gauss",
    String Csv.CR "7 Oak, Street");
   ("", "")].

(** Accepted arguments whose output path lies in the missing directory. *)
Definition paris_args : Namespace :=
  mkNamespace (PyStr "Paris") (PyInt 3) (PyStr "/nonexistent/out.csv")
    (PyInt 42).

(** ** The parser and further vocabulary *)

(** [setup_argparse] (lines 10-48): the four arguments the parser declares,
    each with its [type], whether it is [required], and its [default]. *)
Inductive arg_type : Type := type_str | type_int.

Record Argument : Type := mkArgument {
  arg_flag : string;
  arg_type_of : arg_type;
  arg_required : bool;
  arg_default : pyval
}.

Definition setup_argparse : list Argument :=
  [mkArgument "--city" type_str true PyNone;
   mkArgument "--num_records" type_int true PyNone;
   mkArgument "--output_file" type_str true PyNone;
   mkArgument "--seed" type_int false PyNone].

(** What [parse_args] can store for an argument: the command-line text
    converted by the argument's [type] ([str] gives a [str], [int] an
    [int]), or the default when the argument is optional and absent. *)
Definition stores (a : Argument) (v : pyval) : Prop :=
  match arg_type_of a with
  | type_str => ∃ s, v = PyStr s
  | type_int => ∃ z, v = PyInt z
  end
  ∨ (arg_required a = false ∧ v = arg_default a).

(** A namespace that [setup_argparse().parse_args()] can return. *)
Definition parsed (args : Namespace) : Prop :=
  Forall2 stores setup_argparse
    [city args; num_records args; output_file args; seed args].

(** The records lines 146-149 of [main] add to the log. *)
Definition announce (args : Namespace) : list (level * string) :=
  [(INFO, "Starting data relationship breaker...");
   (INFO,
    "City: " +:+ py_str (city args)
    +:+ ", Number of Records: " +:+ py_str (num_records args)
    +:+ ", Output File: " +:+ py_str (output_file args))]
  ++ (if negb (is_none (seed args))
      then [(INFO,
             "Using seed " +:+ py_str (seed args)
             +:+ " for Faker's random number generator.")]
      else []).

(** The path opens for writing and takes every write. *)
Definition writable (d : Disk) (path : string) : Prop :=
  open_fault d path = None ∧ ∀ data, write_fault d path data = None.

(** [e] is what the disk answers to opening [path] or to writing one of
    [rows] to it. *)
Definition disk_fault (d : Disk) (path : string) (rows : list (list string))
    (e : exn) : Prop :=
  open_fault d path = Some e
  ∨ ∃ row, In row rows ∧ write_fault d path (Csv.row_text row) = Some e.


(** How the process ends when [e] leaves [main]. *)
Definition status_of (e : exn) : exit_status :=
  match e with SysExit code => Exit code | _ => Unhandled e end.

(** The text of a row whose fields need no quoting. *)
Definition plain_line (r : string * string) : string :=
  r.1 +:+ "," +:+ r.2 +:+ Csv.lineterminator.

Section Vocabulary.
Context {F R : Type}.

(** [w'] is [w] but for the file at [path]: the random states, the log, the
    faults of the disk and every other file are the same. *)
Definition same_but_file (path : string) (w w' : World F R) : Prop :=
  faker_random w' = faker_random w
  ∧ global_random w' = global_random w
  ∧ log w' = log w
  ∧ open_fault (disk w') = open_fault (disk w)
  ∧ write_fault (disk w') = write_fault (disk w)
  ∧ ∀ p, p ≠ path → files (disk w') !! p = files (disk w) !! p.

(** A random source whose every draw below [n] answers [n - 1]. *)
Definition picks_last `{RandomGen R} : Prop :=
  ∀ n r, (0 < n)%nat → (randbelow n r).1 = (n - 1)%nat.

End Vocabulary.

(** The random source that always answers the largest value allowed. *)
Global Instance last_random : RandomGen unit.
Proof.
  refine {| randbelow n r := ((n - 1)%nat, r) |}.
  intros n r Hn; simpl. lia.
Defined.

(** A disk on which opening any path is interrupted from the keyboard. *)
Definition interrupted : Disk :=
  mkDisk ∅ (λ _, Some (mkExn KeyboardInterrupt EmptyString)) (λ _ _, None).


(** Arguments as the parser delivers them, asking for no record. *)
Definition zero_args : Namespace :=
  mkNamespace (PyStr "Paris") (PyInt 0) (PyStr "out.csv") PyNone.

Definition plain_data : list (string * string) :=
  [("Ada Byron", "42 Elm Road"); ("Carl Gauss", "")].

(** ** Facts about text *)


Lemma startswith_app (p s : string) : startswith p (p +:+ s) = true.
Proof.
  induction p as [|c p IH]; simpl; [done |].
  by rewrite Ascii.eqb_refl, IH.
Qed.

Lemma str_in_prefix (p s : string) : str_in p (p +:+ s) = true.
Proof.
  destruct p; simpl; [by destruct s |].
  by rewrite Ascii.eqb_refl, startswith_app.
Qed.




(** ** The generator *)

Section Generator.
Context {F R : Type} `{FakerGen F} `{RandomGen R}.


Lemma faker_draws_length (n : nat) (f : F) :
  length (faker_draws n f).1 = n.
Proof.
  revert f. induction n as [|n IH]; intros f; simpl; [done |].
  destruct (faker_name f) as [name f1], (faker_address f1) as [address f2].
  specialize (IH f2). destruct (faker_draws n f2) as [rs f3]. simpl in *. lia.
Qed.

(** The loop of lines 68-75 appends the corrected draws to [data]; only the
    Faker state moves. *)
Lemma generate_loop (city : string) (l : list nat)
    (data : list (string * string)) (w : World F R) :
  for_in l (fun data _ =>
    name <- fake_name ;;
    address <- fake_address ;;
    let address :=
      if negb (str_in (lower city) (lower address))
      then address +:+ ", " +:+ city
      else address in
    ret (data ++ [(name, address)])) data w
  = (Return (data ++ map (with_city city)
                        (faker_draws (length l) (faker_random w)).1),
     mkWorld (faker_draws (length l) (faker_random w)).2
       (global_random w) (disk w) (log w)).
Proof.
  revert data w. induction l as [|i l IH]; intros data w.
  - simpl. unfold ret. rewrite app_nil_r. by destruct w.
  - cbn [for_in length faker_draws].
    unfold bind at 1. unfold bind at 1. unfold fake_name at 1.
    destruct (faker_name (faker_random w)) as [name f1].
    unfold bind at 1. unfold fake_address at 1. cbn [faker_random].
    destruct (faker_address f1) as [address f2].
    unfold ret at 1. rewrite IH. cbn [faker_random global_random disk log].
    destruct (faker_draws (length l) f2) as [rs f3]. cbn [fst snd map].
    by rewrite <- app_assoc.
Qed.

(** The generator in closed form. *)
Lemma generate_fake_data_eq (num_records : Z) (city : string)
    (seed : option Z) (w : World F R) :
  generate_fake_data num_records city seed w
  = (Return (map (with_city city)
               (faker_draws (Z.to_nat num_records) (start_state seed w)).1),
     mkWorld (faker_draws (Z.to_nat num_records) (start_state seed w)).2
       (global_random w) (disk w) (log w)).
Proof.
  unfold generate_fake_data, bind at 1.
  destruct seed as [s|]; cbn [Faker_seed ret start_state];
    rewrite generate_loop; unfold range; by rewrite length_seq.
Qed.

End Generator.

(** ** The shuffler *)

Section Shuffler.
Context {F R : Type} `{FakerGen F} `{RandomGen R}.

Lemma frame_refl (w : World F R) : frame w w.
Proof. by repeat split. Qed.

Lemma frame_trans (w1 w2 w3 : World F R) :
  frame w1 w2 → frame w2 w3 → frame w1 w3.
Proof. unfold frame. intros (-> & -> & ->) (-> & -> & ->). done. Qed.

Lemma swap_items_perm {A} (i j : nat) (x : list A) (w : World F R) :
  (i < length x)%nat → (j < length x)%nat →
  ∃ y, swap_items i j x w = (Return y, w) ∧ y ≡ₚ x ∧ length y = length x.
Proof.
  intros Hi Hj.
  destruct (lookup_lt_is_Some_2 x i Hi) as [xi Exi].
  destruct (lookup_lt_is_Some_2 x j Hj) as [xj Exj].
  eexists. unfold swap_items. rewrite Exi, Exj. split; [done |].
  split; [by eapply Permutation_insert_swap | by rewrite !length_insert].
Qed.

Lemma shuffle_loop {A} (idx : list nat) (x : list A) (w : World F R) :
  Forall (λ i, (i < length x)%nat) idx →
  ∃ y w',
    for_in idx (fun x i =>
      j <- random_randbelow (i + 1) ;; swap_items i j x) x w
    = (Return y, w')
    ∧ y ≡ₚ x ∧ length y = length x ∧ frame w w'.
Proof.
  revert x w. induction idx as [|i idx IH]; intros x w Hidx.
  - exists x, w. by repeat split.
  - inversion Hidx as [|? ? Hi Hrest]; subst.
    cbn [for_in]. unfold bind at 1. unfold bind at 1.
    unfold random_randbelow at 1.
    pose proof (randbelow_lt (i + 1) (global_random w) ltac:(lia)) as Hj.
    destruct (randbelow (i + 1) (global_random w)) as [j r]. simpl in Hj.
    destruct (swap_items_perm i j x
                (mkWorld (faker_random w) r (disk w) (log w)))
      as (y & -> & Hperm & Hlen); [lia | lia |].
    destruct (IH y (mkWorld (faker_random w) r (disk w) (log w)))
      as (z & w' & -> & Hperm' & Hlen' & Hfr).
    { rewrite Hlen. done. }
    exists z, w'. split; [done |]. split; [by rewrite Hperm' |].
    split; [congruence |]. exact Hfr.
Qed.

Lemma random_shuffle_perm {A} (x : list A) (w : World F R) :
  ∃ y w', random_shuffle x w = (Return y, w')
          ∧ y ≡ₚ x ∧ length y = length x ∧ frame w w'.
Proof.
  apply shuffle_loop. apply Forall_forall. intros i Hi.
  apply list_elem_of_In, in_rev, in_seq in Hi. lia.
Qed.

(** The loop of lines 91-92 pairs the names with the addresses at the same
    positions. *)
Lemma repair_loop (addresses : list string) (data : list (string * string))
    (a : nat) (acc : list (string * string)) (w : World F R) :
  (a + length data ≤ length addresses)%nat →
  for_in (zip (seq a (length data)) data)
    (fun reassigned_data '(i, (name, _)) =>
       match addresses !! i with
       | Some a => ret (reassigned_data ++ [(name, a)])
       | None => raise (mkExn IndexError "list index out of range")
       end) acc w
  = (Return (acc ++ zip (map fst data) (drop a addresses)), w).
Proof.
  revert a acc. induction data as [|[name old] data IH]; intros a acc Ha.
  - simpl. unfold ret. by rewrite app_nil_r.
  - cbn [length seq zip zip_with for_in map fst]. unfold bind at 1.
    simpl in Ha.
    destruct (lookup_lt_is_Some_2 addresses a ltac:(lia)) as [v Ev].
    rewrite Ev. unfold ret at 1. rewrite IH by lia.
    rewrite (drop_S addresses v a Ev). cbn [zip_with].
    by rewrite <- app_assoc.
Qed.

(** The shuffler in closed form: the names column, zipped with a permutation
    of the address column. *)
Lemma reassign_addresses_eq (data : list (string * string)) (w : World F R) :
  ∃ addresses w',
    reassign_addresses data w = (Return (zip (map fst data) addresses), w')
    ∧ addresses ≡ₚ map snd data
    ∧ length addresses = length data
    ∧ frame w w'.
Proof.
  destruct (random_shuffle_perm (map snd data) w)
    as (y & w' & Hs & Hperm & Hlen & Hfr).
  rewrite length_map in Hlen.
  exists y, w'. unfold reassign_addresses, bind. rewrite Hs.
  unfold enumerate. rewrite repair_loop by (simpl; lia).
  by rewrite drop_0.
Qed.

End Shuffler.

(** ** What the shuffler reads of the world *)

Section Oblivious.
Context {F R : Type} `{FakerGen F} `{RandomGen R}.

Local Abbreviation reads m := (reads_random_only (F := F) (R := R) m).

Lemma reads_ret {A} (a : A) :
  reads (ret a : M (World F R) A).
Proof. by intros w1 w2 Hw. Qed.

Lemma reads_raise {A} (e : exn) :
  reads (raise e : M (World F R) A).
Proof. by intros w1 w2 Hw. Qed.

Lemma reads_bind {A B} (m : M (World F R) A) (k : A → M (World F R) B) :
  reads m → (∀ a, reads (k a)) → reads (bind m k).
Proof.
  intros Hm Hk w1 w2 Hw. unfold bind.
  destruct (Hm w1 w2 Hw) as [Ho Hw'].
  destruct (m w1) as [o1 w1'], (m w2) as [o2 w2']. simpl in *. subst o2.
  destruct o1 as [a|e]; [by apply Hk | done].
Qed.

Lemma reads_for_in {A B} (l : list B) (body : A → B → M (World F R) A)
    (acc : A) :
  (∀ acc x, reads (body acc x)) →
  reads (for_in l body acc).
Proof.
  intros Hbody. revert acc. induction l as [|x l IH]; intros acc; simpl.
  - apply reads_ret.
  - apply reads_bind; [apply Hbody | apply IH].
Qed.

Lemma reads_randbelow (n : nat) :
  reads (random_randbelow n).
Proof.
  intros w1 w2 Hw. unfold random_randbelow, same_random in *. rewrite Hw.
  by destruct (randbelow n (global_random w2)).
Qed.

Lemma reads_swap_items {A} (i j : nat) (x : list A) :
  reads (swap_items i j x).
Proof.
  unfold swap_items. destruct (x !! j), (x !! i);
    (apply reads_ret || apply reads_raise).
Qed.

Lemma reads_random_shuffle {A} (x : list A) :
  reads (random_shuffle x).
Proof.
  apply reads_for_in. intros acc i.
  apply reads_bind; [apply reads_randbelow |].
  intros j. apply reads_swap_items.
Qed.

Lemma reads_reassign_addresses (data : list (string * string)) :
  reads (reassign_addresses data).
Proof.
  apply reads_bind; [apply reads_random_shuffle |].
  intros addresses. apply reads_for_in. intros acc [i [name old]].
  destruct (addresses !! i); [apply reads_ret | apply reads_raise].
Qed.

End Oblivious.

(** ** The CSV reader reads back what the writer wrote *)

Module CsvFacts.
Import Csv.

Lemma append_assoc (a b c : string) : (a +:+ b) +:+ c = a +:+ (b +:+ c).
Proof. induction a as [|x a IH]; simpl; [done | by rewrite IH]. Qed.

Lemma append_nil_r (a : string) : a +:+ EmptyString = a.
Proof. induction a as [|x a IH]; simpl; [done | by rewrite IH]. Qed.



















End CsvFacts.

(** ** The writer *)

Section Writer.
Context {F R : Type} `{FakerGen F} `{RandomGen R}.

Lemma file_write_return (f data : string) (w w' : World F R) (u : ()) :
  file_write f data w = (Return u, w') →
  files (disk w')
  = <[f := default EmptyString (files (disk w) !! f) +:+ data]>
      (files (disk w)).
Proof.
  unfold file_write. destruct (write_fault (disk w) f data); [done |].
  by intros [= _ <-].
Qed.

Lemma writerows_return (data : list (string * string)) (f content : string)
    (w w' : World F R) (u : ()) :
  files (disk w) !! f = Some content →
  writerows f data w = (Return u, w') →
  files (disk w') !! f
  = Some (content +:+ Csv.rows_text (map record_row data)).
Proof.
  unfold writerows. revert content w u.
  induction data as [|[name address] data IH]; intros content w u Hc.
  - cbn [for_in]. unfold ret. intros [= _ <-].
    by rewrite CsvFacts.append_nil_r.
  - cbn [for_in]. unfold bind at 1, writerow at 1.
    destruct (file_write f (Csv.row_text [name; address]) w)
      as [[[]|e] w1] eqn:Ew; [|done].
    apply file_write_return in Ew. intros Hrest.
    eapply IH in Hrest.
    + rewrite Hrest. cbn [map Csv.rows_text foldr record_row fst snd].
      by rewrite CsvFacts.append_assoc.
    + by rewrite Ew, lookup_insert_eq, Hc.
Qed.

Lemma write_rows_to_return (data : list (string * string)) (path : string)
    (w w' : World F R) (u : ()) :
  write_rows_to data path w = (Return u, w') →
  files (disk w') !! path = Some (Csv.rows_text (csv_rows data)).
Proof.
  unfold write_rows_to, bind at 1, open_w.
  destruct (open_fault (disk w) path); [done |].
  unfold bind at 1, writerow at 1.
  match goal with
  | |- context [file_write ?f ?d ?w0] =>
      destruct (file_write f d w0) as [[[]|e] w1] eqn:Ew; [|done]
  end.
  apply file_write_return in Ew. cbn [disk files] in Ew.
  rewrite lookup_insert_eq in Ew. intros Hrows.
  eapply writerows_return in Hrows; [exact Hrows |].
  by rewrite Ew, lookup_insert_eq.
Qed.

Lemma write_data_to_csv_return (data : list (string * string))
    (path : string) (w w' : World F R) (u : ()) :
  write_data_to_csv data path w = (Return u, w') →
  files (disk w') !! path = Some (Csv.rows_text (csv_rows data)).
Proof.
  unfold write_data_to_csv, try_, bind at 1.
  destruct (write_rows_to data path w) as [[u1|e] w1] eqn:Ew.
  - apply write_rows_to_return in Ew. unfold logging. by intros [= _ <-].
  - cbn [find fst snd]. destruct (caught_by Exception e); [|done].
    unfold bind, logging, raise. done.
Qed.

(** The handler of lines 110-112: the error is logged and the same exception
    raised again. *)
Lemma write_data_to_csv_reraises (data : list (string * string))
    (path : string) (w w1 : World F R) (e : exn) :
  caught_by Exception e = true →
  write_rows_to data path w = (Raise e, w1) →
  write_data_to_csv data path w
  = (Raise e,
     logged ERROR
       ("Error writing to file " +:+ path +:+ ": " +:+ exn_msg e) w1).
Proof.
  intros Hc Hw. unfold write_data_to_csv, try_, bind at 1. rewrite Hw.
  cbn [find fst snd]. rewrite Hc. done.
Qed.

Lemma unwritable_raises (data : list (string * string)) (path : string)
    (w : World F R) (e : exn) :
  unwritable (disk w) path e →
  ∃ w1, write_rows_to data path w = (Raise e, w1) ∧ log w1 = log w
        ∧ open_fault (disk w1) = open_fault (disk w).
Proof.
  intros [Ho | [Ho Hwr]]; unfold write_rows_to, bind at 1, open_w;
    rewrite Ho.
  - by exists w.
  - unfold bind at 1, writerow at 1, file_write at 1. cbn [disk write_fault].
    rewrite Hwr. eexists. split; [done |]. done.
Qed.

End Writer.



(** ** The validator and the top level *)

Section TopLevel.
Context {F R : Type} `{FakerGen F} `{RandomGen R}.

Lemma bind_return {A B} (m : M (World F R) A) (k : A → M (World F R) B)
    (a : A) (w w' : World F R) :
  m w = (Return a, w') → bind m k w = k a w'.
Proof. intros Hm. unfold bind. by rewrite Hm. Qed.

Lemma bind_raise {A B} (m : M (World F R) A) (k : A → M (World F R) B)
    (e : exn) (w w' : World F R) :
  m w = (Raise e, w') → bind m k w = (Raise e, w').
Proof. intros Hm. unfold bind. by rewrite Hm. Qed.

Lemma city_check (v : pyval) :
  negb (isinstance_str v) || negb (truthy v) = negb (nonempty_text v).
Proof. by destruct v. Qed.

Lemma num_records_check (v : pyval) :
  negb (isinstance_int v) || le_zero v = negb (positive_integer v).
Proof.
  destruct v as [| b | z | | |]; try done.
  - by destruct b.
  - unfold le_zero, positive_integer; simpl. lia.
Qed.

Lemma seed_check (v : pyval) :
  negb (is_none v) && negb (isinstance_int v) = negb (integer_if_provided v).
Proof. by destruct v. Qed.

(** The validator in closed form: the first failed check decides the
    message, and the world is left as it was. *)
Lemma validate_input_eq (args : Namespace) (w : World F R) :
  validate_input args w
  = (if negb (nonempty_text (city args))
     then Raise (mkExn ValueError "City must be a non-empty string.")
     else if negb (positive_integer (num_records args))
     then Raise (mkExn ValueError
                   "Number of records must be a positive integer.")
     else if negb (nonempty_text (output_file args))
     then Raise (mkExn ValueError "Output file must be a non-empty string.")
     else if negb (integer_if_provided (seed args))
     then Raise (mkExn ValueError "Seed must be an integer.")
     else Return (),
     w).
Proof.
  unfold validate_input, bind.
  rewrite !city_check, num_records_check, seed_check.
  destruct (nonempty_text (city args)); [|done].
  destruct (positive_integer (num_records args)); [|done].
  destruct (nonempty_text (output_file args)); [|done].
  by destruct (integer_if_provided (seed args)).
Qed.

Lemma validate_input_valid (args : Namespace) (w : World F R) :
  valid_args args = true → validate_input args w = (Return (), w).
Proof.
  unfold valid_args. rewrite validate_input_eq.
  intros [[[-> ->]%andb_prop ->]%andb_prop ->]%andb_prop. done.
Qed.

(** What accepted arguments look like. *)
Lemma valid_args_shape (args : Namespace) :
  valid_args args = true →
  ∃ c n out,
    city args = PyStr c ∧ int_value (num_records args) = Some n ∧ 0 < n
    ∧ output_file args = PyStr out
    ∧ (seed args = PyNone ∨ ∃ s, int_value (seed args) = Some s).
Proof.
  unfold valid_args.
  intros [[[Hc Hn]%andb_prop Ho]%andb_prop Hs]%andb_prop.
  destruct (city args) as [| | | |c|]; try done.
  destruct (output_file args) as [| | | |out|]; try done.
  unfold positive_integer in Hn.
  destruct (int_value (num_records args)) as [n|]; [|done].
  exists c, n, out. repeat split; try done; [lia |].
  unfold integer_if_provided in Hs.
  destruct (seed args) as [| b | z | | |]; try done;
    [by left | right; by eexists..].
Qed.

Lemma expect_seed_valid (v : pyval) (w : World F R) :
  v = PyNone ∨ (∃ s, int_value v = Some s) →
  ∃ s, expect_seed v w = (Return s, w).
Proof.
  intros [-> | [s Hs]]; [by exists None |].
  exists (Some s). unfold expect_seed, expect_int, bind.
  destruct v; try done; cbn in Hs |- *; by simplify_eq.
Qed.

(** The handlers of lines 162-167: whatever [Exception] leaves the [try]
    block is logged and the process exits with status 1. *)
Lemma top_level_handler (m : M (World F R) ()) (w w1 : World F R) (e : exn) :
  caught_by Exception e = true →
  m w = (Raise e, w1) →
  ∃ msg,
    try_ m
      [(ValueError, fun e =>
          do logging ERROR ("Input validation error: " +:+ exn_msg e) ;;
          sys_exit 1);
       (Exception, fun e =>
          do logging ERROR ("An unexpected error occurred: " +:+ exn_msg e) ;;
          sys_exit 1)] w
    = (Raise (SysExit 1), logged ERROR msg w1).
Proof.
  intros Hc Hm. unfold try_. rewrite Hm. cbn [find fst snd].
  destruct (caught_by ValueError e); [by eexists |].
  rewrite Hc. by eexists.
Qed.

(** With accepted arguments and a path that cannot be written, the [try]
    block ends in the writer's exception, its error record last in the
    log. *)
Lemma main_try_unwritable (args : Namespace) (out : string) (w : World F R)
    (e : exn) :
  valid_args args = true → caught_by Exception e = true →
  output_file args = PyStr out → unwritable (disk w) out e →
  ∃ w1 l,
    main_try args w = (Raise e, w1)
    ∧ log w1
      = l ++ [(ERROR,
               "Error writing to file " +:+ out +:+ ": " +:+ exn_msg e)].
Proof.
  intros Hv Hc Hout Hun.
  destruct (valid_args_shape args Hv) as (c & n & out' & Hcity & Hn & Hpos
                                          & Hout' & Hseed).
  rewrite Hout in Hout'. injection Hout' as <-.
  unfold main_try.
  rewrite (bind_return _ _ () w w) by by apply validate_input_valid.
  unfold bind at 1, logging at 1. unfold bind at 1, logging at 1.
  match goal with
  | |- context [bind (if ?b then _ else _) ?k ?w0] =>
      assert (∃ w2, (if b then logging INFO
                       ("Using seed " +:+ py_str (seed args)
                        +:+ " for Faker's random number generator.")
                     else ret ()) w0 = (Return (), w2)
                    ∧ disk w2 = disk w) as (w2 & Hw2 & Hd2)
        by (destruct b; eexists; split; reflexivity);
      rewrite (bind_return _ k () w0 w2 Hw2)
  end.
  unfold bind at 1, expect_int at 1. rewrite Hn. unfold ret at 1.
  unfold bind at 1, expect_str at 1. rewrite Hcity. cbn [str_value].
  unfold ret at 1.
  destruct (expect_seed_valid (seed args) w2 Hseed) as [s Hs].
  rewrite (bind_return _ _ s w2 w2 Hs).
  rewrite (bind_return _ _ _ w2 _ (generate_fake_data_eq n c s w2)).
  match goal with
  | |- context [bind (reassign_addresses ?d) ?k ?w0] =>
      destruct (reassign_addresses_eq d w0)
        as (addresses & w3 & Hre & _ & _ & (_ & Hd3 & _));
      rewrite (bind_return _ k _ w0 w3 Hre)
  end.
  cbn [disk] in Hd3.
  unfold bind at 1, expect_str at 1. rewrite Hout. cbn [str_value].
  unfold ret at 1.
  assert (unwritable (disk w3) out e) as Hun3 by by rewrite Hd3, Hd2.
  match goal with
  | |- context [write_data_to_csv ?d out] =>
      destruct (unwritable_raises d out w3 e Hun3) as (w4 & Hw4 & Hlog & _);
      pose proof (write_data_to_csv_reraises d out w3 w4 e Hc Hw4) as Hre4
  end.
  eexists _, (log w4). split.
  - by apply bind_raise.
  - done.
Qed.

(** With accepted arguments and a path that cannot be written, the process
    exits with status 1. *)
Lemma run_unwritable (args : Namespace) (out : string) (w : World F R)
    (e : exn) :
  valid_args args = true → caught_by Exception e = true →
  output_file args = PyStr out → unwritable (disk w) out e →
  ∃ w' l msg,
    run args w = (Exit 1, w')
    ∧ log w'
      = l ++ [(ERROR,
               "Error writing to file " +:+ out +:+ ": " +:+ exn_msg e);
              (ERROR, msg)].
Proof.
  intros Hv Hc Hout Hun.
  destruct (main_try_unwritable args out w e Hv Hc Hout Hun)
    as (w1 & l & Hm & Hl).
  destruct (top_level_handler (main_try args) w w1 e Hc Hm) as [msg Hmsg].
  exists (logged ERROR msg w1), l, msg.
  unfold run, main. rewrite Hmsg. split; [done |].
  cbn [logged log]. rewrite Hl. by rewrite <- app_assoc.
Qed.

End TopLevel.

(** ** The claims of the specification *)

Section Claims.
Context {F R : Type} `{FakerGen F} `{RandomGen R}.


(** C3. The addresses of the shuffler's output are a rearrangement of the
    addresses of its input: the same addresses with the same
    multiplicities. *)
Theorem reassign_conserves_addresses (data : list (string * string))
    (w : World F R) :
  ∃ out w',
    reassign_addresses data w = (Return out, w')
    ∧ map snd out ≡ₚ map snd data.
Proof.
  destruct (reassign_addresses_eq data w)
    as (addresses & w' & -> & Hperm & Hlen & _).
  eexists _, _. split; [done |].
  change (map snd ?l) with (snd <$> l).
  rewrite snd_zip; [done |]. rewrite length_map. lia.
Qed.

(** C4. The shuffler's output is as long as its input and carries, at every
    index, the name its input carries there. *)
Theorem reassign_keeps_names (data : list (string * string))
    (w : World F R) :
  ∃ out w',
    reassign_addresses data w = (Return out, w')
    ∧ length out = length data
    ∧ ∀ i, fst <$> out !! i = fst <$> data !! i.
Proof.
  destruct (reassign_addresses_eq data w)
    as (addresses & w' & -> & Hperm & Hlen & _).
  eexists _, _. split; [done |].
  assert (fst <$> zip (map fst data) addresses = fst <$> data) as Hfst.
  { rewrite fst_zip; [done |]. rewrite length_map. lia. }
  split.
  - rewrite length_zip, length_map. lia.
  - intros i. by rewrite <- !list_lookup_fmap, Hfst.
Qed.

(** C5. On valid input the generator returns exactly [num_records]
    records. *)
Theorem generate_length (num_records : Z) (city : string) (seed : option Z)
    (w : World F R) :
  1 ≤ num_records → city ≠ EmptyString →
  ∃ out w',
    generate_fake_data num_records city seed w = (Return out, w')
    ∧ Z.of_nat (length out) = num_records.
Proof.
  intros Hn _. eexists _, _. split; [apply generate_fake_data_eq |].
  rewrite length_map, faker_draws_length. lia.
Qed.

(** C6. With a seed given, the generator's output is the same whatever the
    world it is called in: two calls with the same arguments return the same
    records. *)
Theorem generate_deterministic (num_records : Z) (city : string) (s : Z)
    (w1 w2 : World F R) :
  ∃ out,
    (generate_fake_data num_records city (Some s) w1).1 = Return out
    ∧ (generate_fake_data num_records city (Some s) w2).1 = Return out.
Proof. eexists. by rewrite !generate_fake_data_eq. Qed.

(** C10. Below one record the generator returns the empty list and raises
    nothing; it leaves the disk, the log and the [random] module alone. *)
Theorem generate_nonpositive (num_records : Z) (city : string)
    (seed : option Z) (w : World F R) :
  num_records ≤ 0 →
  generate_fake_data num_records city seed w
  = (Return [],
     mkWorld (start_state seed w) (global_random w) (disk w) (log w)).
Proof.
  intros Hn. rewrite generate_fake_data_eq.
  by replace (Z.to_nat num_records) with 0%nat by lia.
Qed.

(** C1, as the code has it. Two runs of generator then shuffler with the
    same arguments and seed return the same names in the same order and the
    same addresses up to their order; they return the same records when
    moreover the [random] module is in the same state at the start of both.
    The seed reaches Faker only. *)
Theorem pipeline_reproducible (num_records : Z) (city : string) (s : Z)
    (w1 w2 : World F R) :
  ∃ out1 out2,
    (pipeline num_records city (Some s) w1).1 = Return out1
    ∧ (pipeline num_records city (Some s) w2).1 = Return out2
    ∧ map fst out1 = map fst out2
    ∧ map snd out1 ≡ₚ map snd out2
    ∧ (same_random w1 w2 → out1 = out2).
Proof.
  unfold pipeline.
  rewrite (bind_return _ _ _ w1 _
             (generate_fake_data_eq num_records city (Some s) w1)).
  rewrite (bind_return _ _ _ w2 _
             (generate_fake_data_eq num_records city (Some s) w2)).
  cbn [start_state].
  set (data := map (with_city city)
                 (faker_draws (Z.to_nat num_records) (faker_seed s)).1).
  set (f := (faker_draws (Z.to_nat num_records) (faker_seed s)).2).
  set (v1 := mkWorld f (global_random w1) (disk w1) (log w1)).
  set (v2 := mkWorld f (global_random w2) (disk w2) (log w2)).
  destruct (reassign_addresses_eq data v1) as (a1 & u1 & E1 & P1 & L1 & _).
  destruct (reassign_addresses_eq data v2) as (a2 & u2 & E2 & P2 & L2 & _).
  exists (zip (map fst data) a1), (zip (map fst data) a2).
  rewrite E1, E2. repeat split.
  - change (map fst ?l) with (fst <$> l).
    rewrite !fst_zip; [done | rewrite length_fmap; lia..].
  - change (map snd ?l) with (snd <$> l).
    rewrite !snd_zip; [by rewrite P1, P2 | rewrite length_fmap; lia..].
  - intros Hsame.
    destruct (reads_reassign_addresses data v1 v2 Hsame) as [Ho _].
    rewrite E1, E2 in Ho. by injection Ho.
Qed.

(** C7. The validator raises exactly when one of the four conditions of its
    contract fails, what it raises is a [ValueError], and in either case it
    leaves the world as it was; when all four hold it returns. *)
Theorem validate_input_contract (args : Namespace) (w : World F R) :
  ((∃ e w', validate_input args w = (Raise e, w'))
   ↔ (nonempty_text (city args) = false
      ∨ positive_integer (num_records args) = false
      ∨ nonempty_text (output_file args) = false
      ∨ integer_if_provided (seed args) = false))
  ∧ (∀ e w', validate_input args w = (Raise e, w') →
       exn_type e = ValueError ∧ w' = w)
  ∧ (nonempty_text (city args) = true
     ∧ positive_integer (num_records args) = true
     ∧ nonempty_text (output_file args) = true
     ∧ integer_if_provided (seed args) = true →
     validate_input args w = (Return (), w)).
Proof.
  rewrite validate_input_eq.
  destruct (nonempty_text (city args)), (positive_integer (num_records args)),
    (nonempty_text (output_file args)), (integer_if_provided (seed args));
    cbn [negb]; (split; [split | split]);
    try (intros (e & w' & [=]); tauto);
    try (intros _; eexists _, _; reflexivity);
    try (intros ? ? [= <- <-]; done);
    try (intros ? ? [=]; done);
    try (intros [? | [? | [? | ?]]]; done);
    try (intros (? & ? & ? & ?); done).
Qed.


(** C9. Whatever [Exception] the [with] block of the writer ends in, the
    writer logs it and raises the same exception, unchanged. When the output
    path cannot be opened or written, [main], run on accepted arguments,
    ends the process with status 1 and not with an unhandled exception, the
    writer's error record in the log. *)
Theorem unwritable_path_exits_1 (args : Namespace) (out : string)
    (w : World F R) (e : exn) :
  valid_args args = true → output_file args = PyStr out →
  caught_by Exception e = true → unwritable (disk w) out e →
  (∀ data (w0 w1 : World F R),
     write_rows_to data out w0 = (Raise e, w1) →
     write_data_to_csv data out w0
     = (Raise e,
        logged ERROR
          ("Error writing to file " +:+ out +:+ ": " +:+ exn_msg e) w1))
  ∧ (∀ data, ∃ w1,
       write_data_to_csv data out w = (Raise e, w1)
       ∧ log w1
         = log w
           ++ [(ERROR,
                "Error writing to file " +:+ out +:+ ": " +:+ exn_msg e)])
  ∧ (∃ w' l msg,
       run args w = (Exit 1, w')
       ∧ log w'
         = l ++ [(ERROR,
                  "Error writing to file " +:+ out +:+ ": " +:+ exn_msg e);
                 (ERROR, msg)]).
Proof.
  intros Hv Hout Hc Hun. split; [|split].
  - intros data w0 w1. by apply write_data_to_csv_reraises.
  - intros data.
    destruct (unwritable_raises data out w e Hun) as (w1 & Hw1 & Hlog & _).
    eexists. split; [by apply write_data_to_csv_reraises |].
    cbn [logged log]. by rewrite Hlog.
  - by apply run_unwritable.
Qed.

End Claims.

(** ** The claims at concrete inputs *)

(** C1 as worded fails: the same arguments and the same seed, and two
    different final address orders, because the two runs start with the
    [random] module in different states, which the seed does not touch. *)
Lemma seed_does_not_fix_the_shuffle :
  (pipeline 3 "Paris" (Some 42) (toy_world 0 1 no_faults)).1
  = Return [("Emmy Noether", "42 Elm Road, Paris");
            ("Grace Hopper", "9 High St, Apt 3, Paris");
            ("Carl Gauss", "1 Rue de Rivoli, PARIS 75001")]
  ∧ (pipeline 3 "Paris" (Some 42) (toy_world 0 3 no_faults)).1
    = Return [("Emmy Noether", "1 Rue de Rivoli, PARIS 75001");
              ("Grace Hopper", "42 Elm Road, Paris");
              ("Carl Gauss", "9 High St, Apt 3, Paris")]
  ∧ ¬ (∀ w1 w2 : World nat Z,
         (pipeline 3 "Paris" (Some 42) w1).1
         = (pipeline 3 "Paris" (Some 42) w2).1).
Proof.
  split; [by vm_compute |]. split; [by vm_compute |].
  intros Hall.
  specialize (Hall (toy_world 0 1 no_faults) (toy_world 0 3 no_faults)).
  vm_compute in Hall. discriminate Hall.
Qed.

Lemma pipeline_reproducible_witness :
  (pipeline 3 "Paris" (Some 42) (toy_world 0 7 no_faults)).1
  = (pipeline 3 "Paris" (Some 42) (toy_world 5 7 missing_dir)).1.
Proof.
  destruct (pipeline_reproducible 3 "Paris" 42
              (toy_world 0 7 no_faults) (toy_world 5 7 missing_dir))
    as (out1 & out2 & E1 & E2 & _ & _ & Hsame).
  rewrite E1, E2, (Hsame eq_refl). reflexivity.
Defined.


Lemma generate_length_witness :
  1 ≤ 3 ∧ "Paris" ≠ EmptyString
  ∧ ∃ out w',
      generate_fake_data 3 "Paris" None (toy_world 4 1 no_faults)
      = (Return out, w')
      ∧ Z.of_nat (length out) = 3.
Proof.
  split; [lia |]. split; [discriminate |].
  apply generate_length; [lia | discriminate].
Defined.

Lemma generate_nonpositive_witness :
  -2 ≤ 0
  ∧ generate_fake_data (-2) "Paris" (Some 42) (toy_world 4 1 no_faults)
    = (Return [],
       mkWorld (start_state (Some 42) (toy_world 4 1 no_faults)) 1
         no_faults []).
Proof.
  split; [lia |].
  apply (generate_nonpositive (-2) "Paris" (Some 42)
           (toy_world 4 1 no_faults)).
  lia.
Defined.


Lemma unwritable_path_exits_1_witness :
  (∃ w1,
     write_data_to_csv [("Ada Byron", "42 Elm Road, Paris")]
       "/nonexistent/out.csv" (toy_world 0 1 missing_dir)
     = (Raise (mkExn FileNotFoundError "[Errno 2] No such file or directory"),
        w1)
     ∧ log w1
       = [(ERROR,
           "Error writing to file /nonexistent/out.csv: "
           +:+ "[Errno 2] No such file or directory")])
  ∧ (∃ w' l msg,
       run paris_args (toy_world 0 1 missing_dir) = (Exit 1, w')
       ∧ log w'
         = l ++ [(ERROR,
                  "Error writing to file /nonexistent/out.csv: "
                  +:+ "[Errno 2] No such file or directory");
                 (ERROR, msg)]).
Proof.
  destruct (unwritable_path_exits_1 paris_args "/nonexistent/out.csv"
              (toy_world 0 1 missing_dir)
              (mkExn FileNotFoundError "[Errno 2] No such file or directory")
              eq_refl eq_refl eq_refl (or_introl eq_refl))
    as (_ & Hwriter & Hmain).
  split; [exact (Hwriter _) | exact Hmain].
Defined.

(** ** Further properties of the generator *)

Section GeneratorMore.
Context {F R : Type} `{FakerGen F} `{RandomGen R}.

Lemma faker_draws_add (n m : nat) (f : F) :
  faker_draws (n + m) f
  = ((faker_draws n f).1 ++ (faker_draws m (faker_draws n f).2).1,
     (faker_draws m (faker_draws n f).2).2).
Proof.
  revert f. induction n as [|n IH]; intros f.
  - cbn [Nat.add faker_draws fst snd app]. by destruct (faker_draws m f).
  - cbn [Nat.add faker_draws].
    destruct (faker_name f) as [name f1], (faker_address f1) as [address f2].
    rewrite IH. destruct (faker_draws n f2) as [rs f3]. cbn [fst snd].
    by destruct (faker_draws m f3).
Qed.


Lemma str_in_empty (s : string) : str_in EmptyString s = true.
Proof. by destruct s. Qed.

(** X1. A call without a seed goes on where the call before it stopped: two
    calls in a row give, end to end, what one call for the sum of the record
    counts gives, and leave the same world. *)
Theorem generate_continues (n m : Z) (city : string) (seed : option Z)
    (w : World F R) :
  0 ≤ n → 0 ≤ m →
  ∃ out1 w1 out2 w2,
    generate_fake_data n city seed w = (Return out1, w1)
    ∧ generate_fake_data m city None w1 = (Return out2, w2)
    ∧ generate_fake_data (n + m) city seed w = (Return (out1 ++ out2), w2).
Proof.
  intros Hn Hm. eexists _, _, _, _.
  split; [apply generate_fake_data_eq |].
  split; [apply generate_fake_data_eq |].
  rewrite generate_fake_data_eq.
  replace (Z.to_nat (n + m)) with (Z.to_nat n + Z.to_nat m)%nat by lia.
  rewrite faker_draws_add. cbn [fst snd start_state faker_random
    global_random disk log]. by rewrite map_app.
Qed.

(** X2. The generator returns Faker's names as drawn, and changes nothing of the
    world but Faker's state: not the [random] module, not the disk, not the
    log. *)
Theorem generate_names_and_frame (num_records : Z) (city : string)
    (seed : option Z) (w : World F R) :
  ∃ out w',
    generate_fake_data num_records city seed w = (Return out, w')
    ∧ map fst out
      = map fst (faker_draws (Z.to_nat num_records) (start_state seed w)).1
    ∧ global_random w' = global_random w
    ∧ disk w' = disk w
    ∧ log w' = log w.
Proof.
  eexists _, _. split; [apply generate_fake_data_eq |].
  split; [| done]. rewrite map_map. apply map_ext. by intros [name raw].
Qed.

(** X3. With the empty city no address is changed: the empty text occurs in
    every address, so the records are Faker's draws as they are. *)
Theorem generate_empty_city (num_records : Z) (seed : option Z)
    (w : World F R) :
  ∃ w',
    generate_fake_data num_records EmptyString seed w
    = (Return (faker_draws (Z.to_nat num_records) (start_state seed w)).1,
       w').
Proof.
  eexists. rewrite generate_fake_data_eq. f_equal. f_equal.
  rewrite <- (map_id (faker_draws _ _).1) at 2. apply map_ext.
  intros [name raw]. unfold with_city. cbn [lower fst snd].
  by rewrite str_in_empty.
Qed.


End GeneratorMore.

(** ** Further properties of the shuffler *)

Section ShufflerMore.
Context {F R : Type} `{FakerGen F} `{RandomGen R}.

Lemma zip_fst_snd_map (data : list (string * string)) :
  zip (map fst data) (map snd data) = data.
Proof. apply zip_fst_snd. Qed.

(** X5. A dataset of at most one record comes back as it is, and no random
    number is drawn for it: the world is untouched. *)
Theorem reassign_short (data : list (string * string)) (w : World F R) :
  (length data ≤ 1)%nat →
  reassign_addresses data w = (Return data, w).
Proof.
  intros Hlen. unfold reassign_addresses, random_shuffle.
  rewrite length_map.
  replace (length data - 1)%nat with 0%nat by lia.
  cbn [seq rev for_in]. unfold bind at 1, ret at 1.
  unfold enumerate. rewrite repair_loop by (rewrite length_map; lia).
  by rewrite drop_0, zip_fst_snd_map.
Qed.

(** X6. The shuffler changes nothing of the world but the state of the [random]
    module: not Faker's state, not the disk, not the log. *)
Theorem reassign_frame (data : list (string * string)) (w : World F R) :
  ∃ out w',
    reassign_addresses data w = (Return out, w')
    ∧ faker_random w' = faker_random w
    ∧ disk w' = disk w
    ∧ log w' = log w.
Proof.
  destruct (reassign_addresses_eq data w)
    as (addresses & w' & E & _ & _ & Hf & Hd & Hl).
  by eexists _, _.
Qed.

Lemma shuffle_loop_picks_last {A} (idx : list nat) (x : list A)
    (w : World F R) :
  picks_last → Forall (λ i, (i < length x)%nat) idx →
  ∃ w',
    for_in idx (fun x i =>
      j <- random_randbelow (i + 1) ;; swap_items i j x) x w
    = (Return x, w').
Proof.
  intros Hlast. revert w. induction idx as [|i idx IH]; intros w Hidx.
  - by exists w.
  - inversion Hidx as [|? ? Hi Hrest]; subst.
    cbn [for_in]. unfold bind at 1. unfold bind at 1.
    unfold random_randbelow at 1.
    pose proof (Hlast (i + 1)%nat (global_random w) ltac:(lia)) as Hj.
    destruct (randbelow (i + 1) (global_random w)) as [j r]. simpl in Hj.
    replace j with i by lia.
    destruct (lookup_lt_is_Some_2 x i Hi) as [xi Exi].
    unfold swap_items at 1. rewrite Exi. unfold ret at 1.
    rewrite !(list_insert_id x i xi Exi). apply IH, Hrest.
Qed.

(** X7. The identity is not excluded: when every draw of the shuffle answers the
    largest value allowed, each item is exchanged with itself and every name
    keeps its own address. *)
Theorem reassign_identity_possible (data : list (string * string))
    (w : World F R) :
  picks_last →
  ∃ w', reassign_addresses data w = (Return data, w').
Proof.
  intros Hlast.
  destruct (shuffle_loop_picks_last
              (rev (seq 1 (length (map snd data) - 1))) (map snd data) w Hlast)
    as [w' Hs].
  { apply Forall_forall. intros i Hi.
    apply list_elem_of_In, in_rev, in_seq in Hi. lia. }
  change (random_shuffle (map snd data) w = (Return (map snd data), w'))
    in Hs.
  exists w'. unfold reassign_addresses, bind. rewrite Hs.
  unfold enumerate. rewrite repair_loop by (rewrite length_map; lia).
  by rewrite drop_0, zip_fst_snd_map.
Qed.

End ShufflerMore.

(** ** Further properties of the writer *)

Section WriterMore.
Context {F R : Type} `{FakerGen F} `{RandomGen R}.

Lemma same_but_file_refl (path : string) (w : World F R) :
  same_but_file path w w.
Proof. by repeat split. Qed.

Lemma same_but_file_trans (path : string) (w1 w2 w3 : World F R) :
  same_but_file path w1 w2 → same_but_file path w2 w3 →
  same_but_file path w1 w3.
Proof.
  intros (? & ? & ? & ? & ? & Hf) (? & ? & ? & ? & ? & Hg).
  repeat split; try congruence. intros p Hp. by rewrite Hg, Hf.
Qed.

(** A write either is refused, the world staying as it is, or puts the data
    at the end of the file. *)
Lemma file_write_cases (f data : string) (w : World F R) :
  (∃ e, write_fault (disk w) f data = Some e
        ∧ file_write f data w = (Raise e, w))
  ∨ (∃ w', write_fault (disk w) f data = None
           ∧ file_write f data w = (Return (), w')
           ∧ same_but_file f w w'
           ∧ files (disk w') !! f
             = Some (default EmptyString (files (disk w) !! f) +:+ data)).
Proof.
  unfold file_write. destruct (write_fault (disk w) f data) as [e|].
  - left. by exists e.
  - right. eexists. split; [done |]. split; [done |]. split.
    + repeat split. intros p Hp. cbn [disk files].
      by rewrite lookup_insert_ne.
    + cbn [disk files]. by rewrite lookup_insert_eq.
Qed.

(** Opening either is refused, the world staying as it is, or leaves the
    file empty. *)
Lemma open_w_cases (path : string) (w : World F R) :
  (∃ e, open_fault (disk w) path = Some e ∧ open_w path w = (Raise e, w))
  ∨ (∃ w', open_fault (disk w) path = None
           ∧ open_w path w = (Return path, w')
           ∧ same_but_file path w w'
           ∧ files (disk w') !! path = Some EmptyString).
Proof.
  unfold open_w. destruct (open_fault (disk w) path) as [e|].
  - left. by exists e.
  - right. eexists. split; [done |]. split; [done |]. split.
    + repeat split. intros p Hp. cbn [disk files].
      by rewrite lookup_insert_ne.
    + cbn [disk files]. by rewrite lookup_insert_eq.
Qed.

(** The rows loop: all rows are appended, or the rows before the refused one
    are. *)
Lemma writerows_cases (data : list (string * string)) (f content : string)
    (w : World F R) :
  files (disk w) !! f = Some content →
  (∃ w',
     writerows f data w = (Return (), w')
     ∧ same_but_file f w w'
     ∧ files (disk w') !! f
       = Some (content +:+ Csv.rows_text (map record_row data)))
  ∨ (∃ e w' k r,
       writerows f data w = (Raise e, w')
       ∧ same_but_file f w w'
       ∧ data !! k = Some r
       ∧ write_fault (disk w) f (Csv.row_text (record_row r)) = Some e
       ∧ files (disk w') !! f
         = Some (content
                 +:+ Csv.rows_text (map record_row (take k data)))).
Proof.
  unfold writerows. revert content w.
  induction data as [|[name address] data IH]; intros content w Hc.
  - left. exists w. split; [done |]. split; [apply same_but_file_refl |].
    by rewrite CsvFacts.append_nil_r.
  - cbn [for_in].
    destruct (file_write_cases f (Csv.row_text [name; address]) w)
      as [(e & Hf & Hw) | (w1 & Hf & Hw & Hsame & Hfile)].
    + right. exists e, w, 0%nat, (name, address).
      split; [by apply bind_raise |]. split; [apply same_but_file_refl |].
      split; [done |]. split; [done |].
      by rewrite CsvFacts.append_nil_r.
    + rewrite (bind_return (writerow f [name; address]) _ () w w1 Hw).
      rewrite Hc in Hfile. cbn [default] in Hfile.
      pose proof Hsame as (_ & _ & _ & _ & Hwf & _).
      destruct (IH _ w1 Hfile)
        as [(w' & -> & Hsame' & Hfile')
           | (e & w' & k & r & -> & Hsame' & Hk & He & Hfile')].
      * left. exists w'. split; [done |].
        split; [by eapply same_but_file_trans |].
        rewrite Hfile'. cbn [map Csv.rows_text foldr record_row fst snd].
        by rewrite CsvFacts.append_assoc.
      * right. exists e, w', (S k), r. split; [done |].
        split; [by eapply same_but_file_trans |].
        split; [done |]. split; [by rewrite <- Hwf |].
        rewrite Hfile'.
        cbn [take map Csv.rows_text foldr record_row fst snd].
        by rewrite CsvFacts.append_assoc.
Qed.

(** The [with] block: it writes every row, or the path does not open, or
    the rows before a refused one are in the file. *)
Lemma write_rows_to_cases (data : list (string * string)) (path : string)
    (w : World F R) :
  (∃ w',
     write_rows_to data path w = (Return (), w')
     ∧ same_but_file path w w'
     ∧ files (disk w') !! path = Some (Csv.rows_text (csv_rows data)))
  ∨ (∃ e,
       write_rows_to data path w = (Raise e, w)
       ∧ open_fault (disk w) path = Some e)
  ∨ (∃ e w' k row,
       write_rows_to data path w = (Raise e, w')
       ∧ same_but_file path w w'
       ∧ open_fault (disk w) path = None
       ∧ csv_rows data !! k = Some row
       ∧ write_fault (disk w) path (Csv.row_text row) = Some e
       ∧ files (disk w') !! path
         = Some (Csv.rows_text (take k (csv_rows data)))).
Proof.
  unfold write_rows_to.
  destruct (open_w_cases path w)
    as [(e & Eo & Hopen) | (w0 & Eo & Hopen & H0w & Hempty)].
  { right. left. exists e. split; [by apply bind_raise | done]. }
  rewrite (bind_return (open_w path) _ path w w0 Hopen).
  destruct (file_write_cases path (Csv.row_text ["Name"; "Address"]) w0)
    as [(e & Hf & Hw) | (w1 & Hf & Hw & Hsame & Hfile)].
  - right. right. exists e, w0, 0%nat, ["Name"; "Address"].
    pose proof H0w as (_ & _ & _ & _ & Hwf0 & _).
    split; [by apply bind_raise |]. split; [done |]. split; [done |].
    split; [done |]. split; [by rewrite <- Hwf0 |]. done.
  - rewrite (bind_return (writerow path ["Name"; "Address"]) _ () w0 w1 Hw).
    rewrite Hempty in Hfile. cbn [default] in Hfile.
    pose proof H0w as (_ & _ & _ & _ & Hwf0 & _).
    pose proof Hsame as (_ & _ & _ & _ & Hwf & _).
    destruct (writerows_cases data path _ w1 Hfile)
      as [(w' & -> & Hsame' & Hfile')
         | (e & w' & k & r & -> & Hsame' & Hk & He & Hfile')].
    + left. exists w'. split; [done |]. split.
      * eapply same_but_file_trans; [exact H0w |].
        by eapply same_but_file_trans.
      * rewrite Hfile'. cbn [csv_rows Csv.rows_text foldr]. done.
    + right. right. exists e, w', (S k), (record_row r).
      split; [done |]. split.
      { eapply same_but_file_trans; [exact H0w |].
        by eapply same_but_file_trans. }
      split; [done |]. split.
      { change (csv_rows data !! S k) with ((record_row <$> data) !! k).
        by rewrite list_lookup_fmap, Hk. }
      split; [by rewrite <- Hwf0, <- Hwf |].
      rewrite Hfile'. cbn [csv_rows take Csv.rows_text foldr].
      change (map record_row ?l) with (record_row <$> l).
      by rewrite fmap_take.
Qed.

End WriterMore.

(** ** The writer and the top level, case by case *)

Section Outcomes.
Context {F R : Type} `{FakerGen F} `{RandomGen R}.

(** The writer in full: it returns with the whole file written and one
    [INFO] record, or raises what the disk answered, logged when it is an
    [Exception]. *)
Lemma write_data_to_csv_outcome (data : list (string * string))
    (path : string) (w : World F R) :
  ∃ w1,
    same_but_file path w w1
    ∧ ((write_data_to_csv data path w
        = (Return (), logged INFO ("Data written to " +:+ path) w1)
        ∧ files (disk w1) !! path = Some (Csv.rows_text (csv_rows data)))
       ∨ (∃ e k,
            disk_fault (disk w) path (csv_rows data) e
            ∧ write_data_to_csv data path w
              = (Raise e,
                 if caught_by Exception e
                 then logged ERROR
                        ("Error writing to file " +:+ path +:+ ": "
                         +:+ exn_msg e) w1
                 else w1)
            ∧ (k < length (csv_rows data))%nat
            ∧ (open_fault (disk w) path = None →
               files (disk w1) !! path
               = Some (Csv.rows_text (take k (csv_rows data)))))).
Proof.
  destruct (write_rows_to_cases data path w)
    as [(w1 & Hw & Hsame & Hfile)
       | [(e & Hw & Ho)
         | (e & w1 & k & row & Hw & Hsame & Ho & Hk & He & Hfile)]].
  - exists w1. split; [done |]. left. split; [| done].
    unfold write_data_to_csv, try_.
    by rewrite (bind_return _ _ () w w1 Hw).
  - exists w. split; [apply same_but_file_refl |]. right. exists e, 0%nat.
    split; [by left |]. split.
    + unfold write_data_to_csv, try_.
      rewrite (bind_raise _ _ e w w Hw). cbn [find fst snd].
      by destruct (caught_by Exception e).
    + split; [cbn; lia | congruence].
  - exists w1. split; [done |]. right. exists e, k.
    split; [right; exists row; split; [| done] |].
    { apply list_elem_of_In. by eapply list_elem_of_lookup_2. }
    split.
    + unfold write_data_to_csv, try_.
      rewrite (bind_raise _ _ e w w1 Hw). cbn [find fst snd].
      by destruct (caught_by Exception e).
    + split; [by eapply lookup_lt_Some | done].
Qed.

Lemma logging_eq (lv : level) (msg : string) (w : World F R) :
  logging lv msg w = (Return (), logged lv msg w).
Proof. done. Qed.

Lemma expect_seed_int_value (v : pyval) (w : World F R) :
  integer_if_provided v = true →
  expect_seed v w = (Return (int_value v), w).
Proof.
  unfold integer_if_provided, expect_seed, expect_int, bind.
  destruct v as [| b | z | | |]; try done.
Qed.

Lemma validate_input_invalid (args : Namespace) (w : World F R) :
  valid_args args = false →
  ∃ msg, validate_input args w = (Raise (mkExn ValueError msg), w).
Proof.
  unfold valid_args. rewrite validate_input_eq.
  destruct (nonempty_text (city args)); [| by eexists].
  destruct (positive_integer (num_records args)); [| by eexists].
  destruct (nonempty_text (output_file args)); [| by eexists].
  destruct (integer_if_provided (seed args)); [done | by eexists].
Qed.

(** An exception that is no [Exception] passes the handlers of [main]. *)
Lemma top_level_passes (m : M (World F R) ()) (w w1 : World F R) (e : exn) :
  caught_by Exception e = false →
  m w = (Raise e, w1) →
  try_ m
    [(ValueError, fun e =>
        do logging ERROR ("Input validation error: " +:+ exn_msg e) ;;
        sys_exit 1);
     (Exception, fun e =>
        do logging ERROR ("An unexpected error occurred: " +:+ exn_msg e) ;;
        sys_exit 1)] w
  = (Raise e, w1).
Proof.
  intros Hc Hm. unfold try_. rewrite Hm. cbn [find fst snd].
  assert (caught_by ValueError e = false) as ->.
  { destruct e as [[] msg | code]; done. }
  by rewrite Hc.
Qed.

(** With accepted arguments [main] comes to the writer: the dataset is
    generated and shuffled, the disk is as it was, the log holds the
    announcements, and what is left of the [try] block is the writer and the
    closing record. *)
Lemma main_try_to_writer (args : Namespace) (w : World F R) :
  valid_args args = true →
  ∃ c n out addresses w3,
    city args = PyStr c
    ∧ int_value (num_records args) = Some n ∧ 0 < n
    ∧ output_file args = PyStr out
    ∧ addresses
      ≡ₚ map snd
           (map (with_city c)
              (faker_draws (Z.to_nat n)
                 (start_state (int_value (seed args)) w)).1)
    ∧ length addresses = Z.to_nat n
    ∧ faker_random w3
      = (faker_draws (Z.to_nat n)
           (start_state (int_value (seed args)) w)).2
    ∧ disk w3 = disk w
    ∧ log w3 = log w ++ announce args
    ∧ main_try args w
      = bind
          (write_data_to_csv
             (zip
                (map fst
                   (map (with_city c)
                      (faker_draws (Z.to_nat n)
                         (start_state (int_value (seed args)) w)).1))
                addresses)
             out)
          (λ _, logging INFO
                  "Data relationship breaking completed successfully.")
          w3.
Proof.
  intros Hv.
  destruct (valid_args_shape args Hv)
    as (c & n & out & Hcity & Hn & Hpos & Hout & _).
  assert (integer_if_provided (seed args) = true) as Hseed.
  { unfold valid_args in Hv. by apply andb_prop in Hv as [_ ?]. }
  unfold main_try.
  rewrite (bind_return _ _ () w w) by by apply validate_input_valid.
  rewrite (bind_return _ _ () _ _ (logging_eq _ _ _)).
  rewrite (bind_return _ _ () _ _ (logging_eq _ _ _)).
  match goal with
  | |- context [bind (if ?b then _ else _) ?k ?w0] =>
      assert (∃ w2, (if b then logging INFO
                       ("Using seed " +:+ py_str (seed args)
                        +:+ " for Faker's random number generator.")
                     else ret ()) w0 = (Return (), w2)
                    ∧ faker_random w2 = faker_random w
                    ∧ disk w2 = disk w
                    ∧ log w2 = log w ++ announce args)
        as (w2 & Hw2 & Hf2 & Hd2 & Hl2);
      [ unfold announce; destruct b; eexists; (split; [reflexivity |]);
        cbn [logged log faker_random disk];
        rewrite <- ?app_assoc; repeat split; reflexivity
      | rewrite (bind_return _ k () w0 w2 Hw2) ]
  end.
  unfold bind at 1, expect_int at 1. rewrite Hn. unfold ret at 1.
  unfold bind at 1, expect_str at 1. rewrite Hcity. cbn [str_value].
  unfold ret at 1.
  rewrite (bind_return _ _ _ w2 w2 (expect_seed_int_value _ w2 Hseed)).
  rewrite (bind_return _ _ _ w2 _
             (generate_fake_data_eq n c (int_value (seed args)) w2)).
  assert (start_state (int_value (seed args)) w2
          = start_state (int_value (seed args)) w) as ->.
  { unfold start_state. by destruct (int_value (seed args)). }
  match goal with
  | |- context [bind (reassign_addresses ?d) ?k ?w0] =>
      destruct (reassign_addresses_eq d w0)
        as (addresses & w3 & Hre & Hperm & Hlen & (Hf3 & Hd3 & Hl3));
      rewrite (bind_return _ k _ w0 w3 Hre)
  end.
  cbn [faker_random disk log] in Hf3, Hd3, Hl3.
  unfold bind at 1, expect_str at 1. rewrite Hout. cbn [str_value].
  unfold ret at 1.
  exists c, n, out, addresses, w3.
  rewrite length_map, faker_draws_length in Hlen.
  repeat split; try done; congruence.
Qed.

End Outcomes.

(** ** Further properties of the writer and of [main] *)

Section More.
Context {F R : Type} `{FakerGen F} `{RandomGen R}.


(** X8. On a path that opens and takes every write the writer returns: the file
    holds the header and every record, whatever it held before; the log
    gains the one [INFO] record; the random states and every other file are
    as they were. *)
Theorem writer_succeeds_on_writable (data : list (string * string))
    (path : string) (w : World F R) :
  writable (disk w) path →
  ∃ w',
    write_data_to_csv data path w = (Return (), w')
    ∧ files (disk w') !! path = Some (Csv.rows_text (csv_rows data))
    ∧ log w' = log w ++ [(INFO, "Data written to " +:+ path)]
    ∧ faker_random w' = faker_random w
    ∧ global_random w' = global_random w
    ∧ ∀ p, p ≠ path → files (disk w') !! p = files (disk w) !! p.
Proof.
  intros [Ho Hwr].
  destruct (write_data_to_csv_outcome data path w)
    as (w1 & (Hf & Hg & Hl & _ & _ & Hfiles)
        & [[Hw Hfile] | (e & k & Hfault & _)]).
  - eexists. split; [exact Hw |]. cbn [logged disk log faker_random
      global_random]. rewrite Hl. done.
  - destruct Hfault as [Hbad | (row & _ & Hbad)]; congruence.
Qed.

(** X9. The writer raises nothing of its own: an exception that leaves it is
    what the disk answered to opening the path or to writing one of the
    rows. *)
Theorem writer_raises_disk_faults_only (data : list (string * string))
    (path : string) (w w' : World F R) (e : exn) :
  write_data_to_csv data path w = (Raise e, w') →
  disk_fault (disk w) path (csv_rows data) e.
Proof.
  intros Hr.
  destruct (write_data_to_csv_outcome data path w)
    as (w1 & _ & [[Hw _] | (e' & k & Hfault & Hw & _)]);
    rewrite Hw in Hr; [done |].
  by injection Hr as <- _.
Qed.

(** X10. [except Exception] lets the others pass: when the path fails with an
    exception that is no [Exception] (a [KeyboardInterrupt]), the writer
    logs nothing, and [main], run on accepted arguments, does not turn it
    into status 1: the exception leaves the program, the log holding the
    announcements only. *)
Theorem non_exception_passes_unlogged (args : Namespace) (out : string)
    (w : World F R) (e : exn) :
  valid_args args = true → output_file args = PyStr out →
  caught_by Exception e = false → unwritable (disk w) out e →
  (∀ data, ∃ w1,
     write_data_to_csv data out w = (Raise e, w1) ∧ log w1 = log w)
  ∧ ∃ w',
      run args w = (status_of e, w') ∧ log w' = log w ++ announce args.
Proof.
  intros Hv Hout Hc Hun. split.
  - intros data.
    destruct (unwritable_raises data out w e Hun) as (w1 & Hw1 & Hlog & _).
    exists w1. split; [| done].
    unfold write_data_to_csv, try_. rewrite (bind_raise _ _ e w w1 Hw1).
    cbn [find fst snd]. by rewrite Hc.
  - destruct (main_try_to_writer args w Hv)
      as (c & n & out' & addresses & w3 & _ & _ & _ & Hout' & _ & _ & _
          & Hd3 & Hl3 & Hmain).
    rewrite Hout in Hout'. injection Hout' as <-.
    rewrite <- Hd3 in Hun.
    match type of Hmain with
    | _ = bind (write_data_to_csv ?d out) _ w3 =>
        destruct (unwritable_raises d out w3 e Hun) as (w4 & Hw4 & Hl4 & _);
        assert (write_data_to_csv d out w3 = (Raise e, w4)) as Hwr
    end.
    { unfold write_data_to_csv, try_. rewrite (bind_raise _ _ e w3 w4 Hw4).
      cbn [find fst snd]. by rewrite Hc. }
    rewrite (bind_raise _ _ e w3 w4 Hwr) in Hmain.
    exists w4. unfold run, main.
    rewrite (top_level_passes _ w w4 e Hc Hmain).
    split; [by destruct e | congruence].
Qed.

(** X11. Rejected arguments end the run at once: status 1, one [ERROR] record
    with the validator's message, and nothing else done: no record
    generated, no random number drawn, no file touched. *)
Theorem invalid_arguments_exit_1 (args : Namespace) (w : World F R) :
  valid_args args = false →
  ∃ msg,
    validate_input args w = (Raise (mkExn ValueError msg), w)
    ∧ run args w
      = (Exit 1, logged ERROR ("Input validation error: " +:+ msg) w).
Proof.
  intros Hv. destruct (validate_input_invalid args w Hv) as [msg Hmsg].
  exists msg. split; [done |].
  unfold run, main, try_, main_try.
  by rewrite (bind_raise _ _ _ w w Hmsg).
Qed.


End More.

Section Status.
Context {F R : Type} `{FakerGen F} `{RandomGen R}.


(** X14. For a namespace the parser can return, the type checks of the validator
    never fail and a seed is never rejected: it raises exactly when the city
    is the empty text, the record count is not above zero, or the output
    file is the empty text. *)
Theorem parsed_arguments_validation (args : Namespace) (w : World F R) :
  parsed args →
  ((∃ e w', validate_input args w = (Raise e, w'))
   ↔ (city args = PyStr EmptyString
      ∨ (∃ z, num_records args = PyInt z ∧ z ≤ 0)
      ∨ output_file args = PyStr EmptyString)).
Proof.
  unfold parsed, setup_argparse. intros Hp.
  apply Forall2_cons_1 in Hp as [Hc Hp].
  apply Forall2_cons_1 in Hp as [Hn Hp].
  apply Forall2_cons_1 in Hp as [Ho Hp].
  apply Forall2_cons_1 in Hp as [Hs _].
  destruct Hc as [[c Hc] | [[=] _]], Hn as [[n Hn] | [[=] _]],
    Ho as [[o Ho] | [[=] _]].
  assert (integer_if_provided (seed args) = true) as Hseed.
  { destruct Hs as [[z ->] | [_ ->]]; done. }
  rewrite validate_input_eq, Hc, Hn, Ho, Hseed.
  cbn [nonempty_text positive_integer int_value negb].
  destruct (String.eqb_spec c ""), (String.eqb_spec o ""),
    (Z.ltb_spec 0 n); cbn [negb]; subst; split;
    try (intros _; eexists _, _; reflexivity);
    try (intros _; tauto);
    try (intros _; right; left; exists n; split; [done | lia]);
    try (intros (? & ? & [=]));
    try (intros [[=] | [(z & [= <-] & Hz) | [=]]]; congruence || lia).
Qed.

Lemma row_text_plain (name address : string) :
  Csv.needs_quotes name = false → Csv.needs_quotes address = false →
  Csv.row_text [name; address] = plain_line (name, address).
Proof.
  intros Hn Ha. unfold Csv.row_text, plain_line.
  cbn [Csv.join_fields fst snd]. unfold Csv.write_field. rewrite Hn, Ha.
  destruct name; simpl; by rewrite ?CsvFacts.append_assoc.
Qed.

(** X15. Records whose names and addresses hold no comma, no double quote and no
    line break are written as they are: the file is the header line and one
    line [name,address] per record, each ended by CR LF. *)
Theorem plain_records_file_text (data : list (string * string))
    (path : string) (w w' : World F R) (u : ()) :
  Forall (λ r, Csv.needs_quotes r.1 = false ∧ Csv.needs_quotes r.2 = false)
    data →
  write_data_to_csv data path w = (Return u, w') →
  files (disk w') !! path
  = Some ("Name,Address" +:+ Csv.lineterminator
          +:+ foldr (λ r text, plain_line r +:+ text) EmptyString data).
Proof.
  intros Hplain Hw. apply write_data_to_csv_return in Hw. rewrite Hw.
  clear Hw. f_equal. cbn [csv_rows Csv.rows_text foldr].
  change (Csv.row_text ["Name"; "Address"])
    with ("Name,Address" +:+ Csv.lineterminator).
  rewrite CsvFacts.append_assoc. do 2 f_equal.
  induction Hplain as [|[name address] data [Hn Ha] _ IH]; [done |].
  cbn [map foldr]. cbn [fst snd] in Hn, Ha.
  change (record_row (name, address)) with [name; address].
  by rewrite row_text_plain, IH.
Qed.

End Status.

(** ** The further properties at concrete inputs *)

Lemma generate_continues_witness :
  0 ≤ 2 ∧ 0 ≤ 1
  ∧ ∃ out1 w1 out2 w2,
      generate_fake_data 2 "Paris" (Some 42) (toy_world 0 1 no_faults)
      = (Return out1, w1)
      ∧ generate_fake_data 1 "Paris" None w1 = (Return out2, w2)
      ∧ generate_fake_data (2 + 1) "Paris" (Some 42)
          (toy_world 0 1 no_faults)
        = (Return (out1 ++ out2), w2).
Proof.
  split; [lia |]. split; [lia |].
  apply generate_continues; lia.
Defined.

Lemma reassign_short_witness :
  reassign_addresses [("Ada Byron", "42 Elm Road, Paris")]
    (toy_world 0 1 no_faults)
  = (Return [("Ada Byron", "42 Elm Road, Paris")], toy_world 0 1 no_faults).
Proof. apply reassign_short. simpl. lia. Defined.

Lemma reassign_identity_possible_witness :
  ∃ w',
    reassign_addresses awkward_data (mkWorld 0%nat () no_faults [])
    = (Return awkward_data, w').
Proof.
  apply (reassign_identity_possible (F := nat) (R := unit)).
  intros n r _. reflexivity.
Defined.

Lemma writer_succeeds_on_writable_witness :
  ∃ w',
    write_data_to_csv awkward_data "out.csv" (toy_world 0 1 no_faults)
    = (Return (), w')
    ∧ files (disk w') !! "out.csv"
      = Some (Csv.rows_text (csv_rows awkward_data))
    ∧ log w' = [(INFO, "Data written to out.csv")]
    ∧ faker_random w' = 0%nat
    ∧ global_random w' = 1
    ∧ ∀ p, p ≠ "out.csv" → files (disk w') !! p = files no_faults !! p.
Proof.
  apply (writer_succeeds_on_writable awkward_data "out.csv"
           (toy_world 0 1 no_faults)).
  split; [reflexivity | intros data; reflexivity].
Defined.

Lemma writer_raises_disk_faults_only_witness :
  disk_fault missing_dir "/nonexistent/out.csv" (csv_rows awkward_data)
    (mkExn FileNotFoundError "[Errno 2] No such file or directory").
Proof.
  apply (writer_raises_disk_faults_only awkward_data "/nonexistent/out.csv"
           (toy_world 0 1 missing_dir)
           (write_data_to_csv awkward_data "/nonexistent/out.csv"
              (toy_world 0 1 missing_dir)).2).
  reflexivity.
Defined.

Lemma non_exception_passes_unlogged_witness :
  (∀ data, ∃ w1,
     write_data_to_csv data "/nonexistent/out.csv" (toy_world 0 1 interrupted)
     = (Raise (mkExn KeyboardInterrupt EmptyString), w1)
     ∧ log w1 = [])
  ∧ ∃ w',
      run paris_args (toy_world 0 1 interrupted)
      = (Unhandled (mkExn KeyboardInterrupt EmptyString), w')
      ∧ log w' = announce paris_args.
Proof.
  apply (non_exception_passes_unlogged paris_args "/nonexistent/out.csv"
           (toy_world 0 1 interrupted)
           (mkExn KeyboardInterrupt EmptyString));
    [reflexivity | reflexivity | reflexivity | left; reflexivity].
Defined.

Lemma invalid_arguments_exit_1_witness :
  ∃ msg,
    validate_input zero_args (toy_world 0 1 no_faults)
    = (Raise (mkExn ValueError msg), toy_world 0 1 no_faults)
    ∧ run zero_args (toy_world 0 1 no_faults)
      = (Exit 1,
         logged ERROR ("Input validation error: " +:+ msg)
           (toy_world 0 1 no_faults)).
Proof. apply invalid_arguments_exit_1. reflexivity. Defined.



Lemma parsed_arguments_validation_witness :
  (∃ e w', validate_input zero_args (toy_world 0 1 no_faults) = (Raise e, w'))
  ↔ (city zero_args = PyStr EmptyString
     ∨ (∃ z, num_records zero_args = PyInt z ∧ z ≤ 0)
     ∨ output_file zero_args = PyStr EmptyString).
Proof.
  apply parsed_arguments_validation.
  constructor; [left; by exists "Paris" |].
  constructor; [left; by exists 0 |].
  constructor; [left; by exists "out.csv" |].
  constructor; [right; split; reflexivity | constructor].
Defined.

Lemma plain_records_file_text_witness :
  files (disk (write_data_to_csv plain_data "out.csv"
                 (toy_world 0 1 no_faults)).2) !! "out.csv"
  = Some ("Name,Address" +:+ Csv.lineterminator
          +:+ foldr (λ r text, plain_line r +:+ text) EmptyString plain_data).
Proof.
  apply (plain_records_file_text plain_data "out.csv"
           (toy_world 0 1 no_faults) _ ()).
  - repeat constructor.
  - reflexivity.
Defined.
